(** * opendlv-logic-control-speed: the PID speed controller

    A shallow embedding of [src/opendlv-logic-control-speed.cpp].

    - C++ [double] is IEEE 754 binary64: Rocq's primitive [float], whose
      operations are specified by [SpecFloat] through [FloatAxioms].  Every
      arithmetic operation of the source is one correctly rounded operation
      (round to nearest, ties to even; no extended precision and no fused
      multiply-add).
    - C++ [float] (the fields of [ActuationRequest]) is IEEE 754 binary32:
      a [spec_float] in the (24, 128) format, obtained from a [double] by
      rounding to nearest even.
    - [uint32_t] and [uint16_t] are [Z] reduced modulo [2^32] and [2^16].
    - The three lambdas of [main] ([onGroundSpeedReading],
      [onGroundSpeedRequest], [atFrequency]) capture the locals of [main] by
      reference; here the captured locals that are only read are a [Config]
      and those that are assigned a [State], passed explicitly.  Each call of
      a lambda is one atomic step on the [State]; a run of the program is a
      list of [Event]s.  The mutexes order the accesses and are not modelled.
    - [od4.send] appends to the list of envelopes handed to the transport;
      the output on [std::cout] under [--verbose] is left out. *)

From Stdlib Require Import ZArith List Bool Lia.
From Stdlib Require Import Floats.
Import ListNotations.

Local Open Scope float_scope.

(** ** Machine numbers *)

Module Machine.

(** [static_cast<uint32_t>] of an [int]. *)
Definition to_uint32 (z : Z) : Z := (z mod 2 ^ 32)%Z.

(** [static_cast<uint16_t>] of an [int]. *)
Definition to_uint16 (z : Z) : Z := (z mod 2 ^ 16)%Z.

(** Implicit conversion of a [uint32_t] to [double] (exact: 32 < 53 bits). *)
Definition double_of_uint32 (n : Z) : float :=
  PrimFloat.of_uint63 (Uint63.of_Z n).

(** binary32 values. *)
Definition float32 : Type := spec_float.

Definition prec32 : Z := 24.
Definition emax32 : Z := 128.

(** [static_cast<float>] of a [double]: round to nearest even in binary32;
    zeros, infinities and NaN are kept. *)
Definition static_cast_float (x : float) : float32 :=
  match Prim2SF x with
  | S754_finite s m e => binary_round prec32 emax32 s m e
  | v => v
  end.

(** The [double] that has the value of a binary32 number (exact). *)
Definition double_of_float32 (x : float32) : float :=
  SF2Prim
    (match x with
     | S754_finite s m e => binary_round prec emax s m e
     | v => v
     end).

(** The literal [0.0f]. *)
Definition zero32 : float32 := S754_zero false.

(** [std::abs] on [double]. *)
Definition fabs (x : float) : float := PrimFloat.abs x.

(** [a > b] on [double]. *)
Definition gtb (a b : float) : bool := (b <? a).

End Machine.
Import Machine.

(** ** The locals of [main] *)

(** The locals that no lambda assigns (lines 54-87). *)
Record Config : Type := mkConfig {
  inputSenderId : Z;
  controlSenderId : Z;
  outputSenderId : Z;
  verbose : bool;
  hasP : bool;
  hasD : bool;
  hasI : bool;
  hasILimit : bool;
  hasOutputLimitMin : bool;
  hasOutputLimitMax : bool;
  p : float;
  d : float;
  i : float;
  iLimit : float;
  outputLimitMin : float;
  outputLimitMax : float;
  dt : float
}.

(** The locals that the lambdas assign (lines 89-98). *)
Record State : Type := mkState {
  integral : float;
  prevError : float;
  hasReading : bool;
  reading : float;
  hasTarget : bool;
  target : float
}.

(** ** Messages *)

(** A received envelope: the sender stamp and the [groundSpeed] field of the
    [GroundSpeedReading] or [GroundSpeedRequest] it carries, as the [double]
    that the assignment of line 114 or 132 stores. *)
Record Envelope : Type := mkEnvelope {
  senderStamp : Z;
  groundSpeed : float
}.

(** [opendlv::proxy::ActuationRequest]. *)
Record ActuationRequest : Type := mkActuationRequest {
  acceleration : float32;
  steering : float32;
  isValid : bool
}.

(** What [od4.send(ar, sampleTime, senderStamp)] hands to the transport. *)
Record Sent : Type := mkSent {
  sentMessage : ActuationRequest;
  sentSampleTime : Z;
  sentSenderStamp : Z
}.

(** ** The data-triggered lambdas *)

(** Lines 103-119. *)
Definition onGroundSpeedReading (c : Config) (envelope : Envelope) (s : State)
  : State :=
  if negb (senderStamp envelope =? inputSenderId c)%Z then s
  else
    mkState (integral s) (prevError s)
            true (groundSpeed envelope)
            (hasTarget s) (target s).

(** Lines 121-137. *)
Definition onGroundSpeedRequest (c : Config) (envelope : Envelope) (s : State)
  : State :=
  if negb (senderStamp envelope =? controlSenderId c)%Z then s
  else
    mkState (integral s) (prevError s)
            (hasReading s) (reading s)
            true (groundSpeed envelope).

(** ** The values [atFrequency] computes, block by block

    Names for the intermediate values of one call; [atFrequency_ready] below
    shows that they are the ones of the lambda. *)

(** Line 153. *)
Definition errorOf (s : State) : float := target s - reading s.

(** Lines 156-159: [control] after the P block. *)
Definition controlP (c : Config) (error : float) : float :=
  let control := 0 in
  if hasP c then control + p c * error else control.

(** Lines 161-163: [control] after the D block. *)
Definition controlD (c : Config) (error prevError control : float) : float :=
  if hasD c then control + d c * (error - prevError) / dt c else control.

(** Lines 166-173: [integral] after the update, when [hasI]. *)
Definition integralUpdate (c : Config) (error integral : float) : float :=
  let integral := integral + error * dt c in
  if hasILimit c && gtb (fabs integral) (iLimit c) then
    if gtb integral 0 then iLimit c else - iLimit c
  else integral.

(** Lines 165-175: [integral] after the I block. *)
Definition integralI (c : Config) (error integral : float) : float :=
  if hasI c then integralUpdate c error integral else integral.

(** Lines 165-175: [control] after the I block. *)
Definition controlI (c : Config) (error integral control : float) : float :=
  if hasI c then control + i c * integralUpdate c error integral else control.

(** Lines 177-179. *)
Definition clampMin (c : Config) (control : float) : float :=
  if hasOutputLimitMin c && (control <? outputLimitMin c)
  then outputLimitMin c else control.

(** Lines 181-183. *)
Definition clampMax (c : Config) (control : float) : float :=
  if hasOutputLimitMax c && (control <? outputLimitMax c)
  then outputLimitMax c else control.

(** [control] at line 175, before the output limits. *)
Definition controlPID (c : Config) (s : State) : float :=
  let error := errorOf s in
  controlI c error (integral s) (controlD c error (prevError s) (controlP c error)).

(** [control] at line 185. *)
Definition controlValue (c : Config) (s : State) : float :=
  clampMax c (clampMin c (controlPID c s)).

(** Lines 185-188. *)
Definition actuationRequest (control : float) : ActuationRequest :=
  mkActuationRequest (static_cast_float control) zero32 true.

(** Lines 139-193, statement by statement.  [now] is the value of
    [cluon::time::now()].  The result is the [State] after the call and what
    was sent; the lambda's own return value is [true] on both paths.
    [prevError] is read at line 162 and assigned nowhere in the file. *)
Definition atFrequency (c : Config) (now : Z) (s : State) : State * list Sent :=
  if negb (hasReading s) || negb (hasTarget s) then (s, [])
  else
    let error := target s - reading s in
    let control := 0 in
    let control := if hasP c then control + p c * error else control in
    let control :=
      if hasD c then control + d c * (error - prevError s) / dt c else control in
    let '(integral, control) :=
      if hasI c then
        let integral := integral s + error * dt c in
        let integral :=
          if hasILimit c && gtb (fabs integral) (iLimit c) then
            if gtb integral 0 then iLimit c else - iLimit c
          else integral in
        (integral, control + i c * integral)
      else (integral s, control) in
    let control :=
      if hasOutputLimitMin c && (control <? outputLimitMin c)
      then outputLimitMin c else control in
    let control :=
      if hasOutputLimitMax c && (control <? outputLimitMax c)
      then outputLimitMax c else control in
    let ar := mkActuationRequest (static_cast_float control) zero32 true in
    (mkState integral (prevError s)
             (hasReading s) (reading s) (hasTarget s) (target s),
     [mkSent ar now (outputSenderId c)]).

(** ** Runs of the program *)

(** What the session delivers to the registered lambdas (lines 195-199). *)
Inductive Event : Type :=
| GroundSpeedReadingMsg (envelope : Envelope)
| GroundSpeedRequestMsg (envelope : Envelope)
| TimeTrigger (now : Z).

Definition step (c : Config) (s : State) (ev : Event) : State * list Sent :=
  match ev with
  | GroundSpeedReadingMsg envelope => (onGroundSpeedReading c envelope s, [])
  | GroundSpeedRequestMsg envelope => (onGroundSpeedRequest c envelope s, [])
  | TimeTrigger now => atFrequency c now s
  end.

(** The state after a list of events and everything sent on the way, oldest
    first. *)
Fixpoint run (c : Config) (s : State) (evs : list Event) : State * list Sent :=
  match evs with
  | [] => (s, [])
  | ev :: evs' =>
      let '(s1, out1) := step c s ev in
      let '(s2, out2) := run c s1 evs' in
      (s2, out1 ++ out2)
  end.

(** Lines 89-98.  [reading] and [target] are declared without an initialiser:
    their first values are whatever the stack holds. *)
Definition initialState (reading0 target0 : float) : State :=
  mkState 0 0 false reading0 false target0.

(** ** [main] up to the registration of the lambdas *)

(** The command line after [cluon::getCommandlineArguments]: for each key,
    [None] when [count(key) == 0], otherwise the value [std::stoi] (an [int])
    or [std::stod] (a [double]) returns for its text. *)
Record CommandLine : Type := mkCommandLine {
  arg_cid : option Z;
  arg_freq : option Z;
  arg_input_sender_id : option Z;
  arg_control_sender_id : option Z;
  arg_output_sender_id : option Z;
  arg_verbose : bool;
  arg_p : option float;
  arg_d : option float;
  arg_i : option float;
  arg_i_limit : option float;
  arg_output_limit_min : option float;
  arg_output_limit_max : option float
}.

(** [commandlineArguments.count(key) != 0]. *)
Definition count {A : Type} (o : option A) : bool :=
  match o with Some _ => true | None => false end.

(** Lines 54-65: [count != 0 ? static_cast<uint32_t>(std::stoi(..)) : 0]. *)
Definition stoi_or_zero (o : option Z) : Z :=
  match o with Some z => to_uint32 z | None => 0%Z end.

(** Lines 78-85: [has ? std::stod(..) : 0.0f]. *)
Definition stod_or_zero (o : option float) : float :=
  match o with Some x => x | None => 0 end.

(** What [main] has done when it returns or blocks in the session. *)
Inductive Startup : Type :=
| Usage (retCode : Z)
    (** lines 30-47: the usage text is printed and [main] returns [retCode] *)
| Started (cid : Z) (freq : Z) (c : Config)
    (** lines 49-199: session [cid] is opened, the two data triggers are
        registered and [od4.timeTrigger(freq, atFrequency)] is called *).

Definition main (args : CommandLine) : Startup :=
  match arg_cid args, arg_freq args with
  | Some cidArg, Some freqArg =>
      let cid := to_uint16 cidArg in
      let freq := to_uint32 freqArg in
      Started cid freq
        (mkConfig
           (stoi_or_zero (arg_input_sender_id args))
           (stoi_or_zero (arg_control_sender_id args))
           (stoi_or_zero (arg_output_sender_id args))
           (arg_verbose args)
           (count (arg_p args)) (count (arg_d args)) (count (arg_i args))
           (count (arg_i_limit args))
           (count (arg_output_limit_min args))
           (count (arg_output_limit_max args))
           (stod_or_zero (arg_p args)) (stod_or_zero (arg_d args))
           (stod_or_zero (arg_i args)) (stod_or_zero (arg_i_limit args))
           (stod_or_zero (arg_output_limit_min args))
           (stod_or_zero (arg_output_limit_max args))
           (1 / double_of_uint32 freq))
  | _, _ => Usage 1
  end.

Definition configOf (st : Startup) : option Config :=
  match st with
  | Started _ _ c => Some c
  | Usage _ => None
  end.

(** ** Vocabulary of the properties *)

(** The guard of line 145 lets the call through. *)
Definition ready (s : State) : bool := hasReading s && hasTarget s.

(** The speeds that the reading handler stored during a run, oldest first. *)
Fixpoint deliveredReadings (c : Config) (evs : list Event) : list float :=
  match evs with
  | [] => []
  | GroundSpeedReadingMsg envelope :: evs' =>
      if (senderStamp envelope =? inputSenderId c)%Z
      then groundSpeed envelope :: deliveredReadings c evs'
      else deliveredReadings c evs'
  | _ :: evs' => deliveredReadings c evs'
  end.

(** The speeds that the request handler stored during a run, oldest first. *)
Fixpoint deliveredTargets (c : Config) (evs : list Event) : list float :=
  match evs with
  | [] => []
  | GroundSpeedRequestMsg envelope :: evs' =>
      if (senderStamp envelope =? controlSenderId c)%Z
      then groundSpeed envelope :: deliveredTargets c evs'
      else deliveredTargets c evs'
  | _ :: evs' => deliveredTargets c evs'
  end.


(** Two [double]s are the same number: identical (NaN included), or equal
    for [==], which identifies [+0.0] and [-0.0]. *)
Definition sameNumber (x y : float) : Prop := x = y \/ (x =? y) = true.

(** [x >= y] on [double]. *)
Definition geb (x y : float) : bool := (y <=? x).



(** Neither NaN nor an infinity, on [spec_float]. *)
Definition SFfinite (a : spec_float) : bool :=
  match a with
  | S754_zero _ | S754_finite _ _ _ => true
  | _ => false
  end.

(** The times of the ticks of a run, oldest first. *)
Fixpoint tickTimes (evs : list Event) : list Z :=
  match evs with
  | [] => []
  | TimeTrigger now :: evs' => now :: tickTimes evs'
  | _ :: evs' => tickTimes evs'
  end.

(** An envelope that its handler drops at line 107 or 125. *)
Definition ignoredEvent (c : Config) (ev : Event) : bool :=
  match ev with
  | GroundSpeedReadingMsg envelope =>
      negb (senderStamp envelope =? inputSenderId c)%Z
  | GroundSpeedRequestMsg envelope =>
      negb (senderStamp envelope =? controlSenderId c)%Z
  | TimeTrigger _ => false
  end.

(** Two states that differ at most in a [reading] or a [target] that has not
    been set yet. *)
Definition sameUpToUnset (s s' : State) : Prop :=
  integral s = integral s' /\ prevError s = prevError s' /\
  hasReading s = hasReading s' /\ hasTarget s = hasTarget s' /\
  (hasReading s = true -> reading s = reading s') /\
  (hasTarget s = true -> target s = target s').

(** ** Command lines of the scenarios *)

Definition noArgs : CommandLine :=
  mkCommandLine None None None None None false None None None None None None.

(** [--cid=111 --freq=50 --p=1.0] *)
Definition pOnlyArgs : CommandLine :=
  mkCommandLine (Some 111%Z) (Some 50%Z) None None None false
                (Some 1) None None None None None.

(** [--cid=111 --freq=1 --d=1.0] *)
Definition dOnlyArgs : CommandLine :=
  mkCommandLine (Some 111%Z) (Some 1%Z) None None None false
                None (Some 1) None None None None.

(** [--cid=111 --freq=0 --p=1.0] *)
Definition zeroFreqArgs : CommandLine :=
  mkCommandLine (Some 111%Z) (Some 0%Z) None None None false
                (Some 1) None None None None None.

(** [--cid=111 --freq=-1 --p=1.0] *)
Definition negFreqArgs : CommandLine :=
  mkCommandLine (Some 111%Z) (Some (-1)%Z) None None None false
                (Some 1) None None None None None.

(** [--cid=111 --freq=50 --p=1.0 --output-limit-min=0.0 --output-limit-max=5.0] *)
Definition minMaxArgs : CommandLine :=
  mkCommandLine (Some 111%Z) (Some 50%Z) None None None false
                (Some 1) None None None (Some 0) (Some 5).

(** [--cid=111 --freq=50 --p=1.0 --output-limit-min=0.0] *)
Definition minOnlyArgs : CommandLine :=
  mkCommandLine (Some 111%Z) (Some 50%Z) None None None false
                (Some 1) None None None (Some 0) None.

(** [--cid=111 --freq=50 --i=1.0 --i-limit=1.0] *)
Definition iLimitArgs : CommandLine :=
  mkCommandLine (Some 111%Z) (Some 50%Z) None None None false
                None None (Some 1) (Some 1) None None.

(** [--cid=111 --freq=1 --p=0x1p1000 --d=-0x1p1000 --output-limit-max=1.0]:
    the two gains are finite, about [1.07e301] and its opposite. *)
Definition hugeGainArgs : CommandLine :=
  mkCommandLine (Some 111%Z) (Some 1%Z) None None None false
                (Some 0x1p1000) (Some (-0x1p1000)) None None None (Some 1).


(** [--cid=111 --freq=50 --i=1.0 --i-limit=-1.0] *)
Definition negativeLimitArgs : CommandLine :=
  mkCommandLine (Some 111%Z) (Some 50%Z) None None None false
                None None (Some 1) (Some (-1)) None None.

(** [--cid=111 --freq=50] *)
Definition noGainArgs : CommandLine :=
  mkCommandLine (Some 111%Z) (Some 50%Z) None None None false
                None None None None None None.

(** The configuration [main] builds for a command line that has [--cid] and
    [--freq]; for one that has not, no lambda ever runs and the value is
    irrelevant. *)
Definition configFor (args : CommandLine) : Config :=
  match configOf (main args) with
  | Some c => c
  | None => mkConfig 0 0 0 false false false false false false false 0 0 0 0 0 0 0
  end.

Definition readingMsg (v : float) : Event := GroundSpeedReadingMsg (mkEnvelope 0 v).
Definition requestMsg (v : float) : Event := GroundSpeedRequestMsg (mkEnvelope 0 v).

(** * Facts about binary64 arithmetic *)

Module FloatFacts.

Lemma Prim2SF_zero : Prim2SF 0 = S754_zero false.
Proof. reflexivity. Qed.

Lemma Prim2SF_neg_zero : Prim2SF neg_zero = S754_zero true.
Proof. reflexivity. Qed.

Lemma SFcompare_refl (a : spec_float) :
  a <> S754_nan -> SFcompare a a = Some Eq.
Proof.
  destruct a as [s|s| |s m e]; intros Hn; try congruence; simpl.
  - reflexivity.
  - now destruct s.
  - rewrite Z.compare_refl.
    change (Pos.compare_cont Eq m m) with (Pos.compare m m).
    rewrite Pos.compare_refl. now destruct s.
Qed.

Lemma SFcompare_antisym (a b : spec_float) :
  SFcompare b a = option_map CompOpp (SFcompare a b).
Proof.
  destruct a as [sa|sa| |sa ma ea], b as [sb|sb| |sb mb eb]; simpl;
    try reflexivity;
    try (destruct sa; reflexivity);
    try (destruct sb; reflexivity);
    try (destruct sa, sb; reflexivity).
  f_equal.
  rewrite (Z.compare_antisym ea eb).
  change (Pos.compare_cont Eq mb ma) with (Pos.compare mb ma).
  change (Pos.compare_cont Eq ma mb) with (Pos.compare ma mb).
  rewrite (Pos.compare_antisym ma mb).
  destruct sa, sb; simpl; try reflexivity;
    destruct (ea ?= eb)%Z; simpl; try reflexivity;
    destruct (ma ?= mb)%positive; reflexivity.
Qed.

Lemma is_nan_spec (x : float) : is_nan x = true <-> Prim2SF x = S754_nan.
Proof.
  unfold is_nan. rewrite eqb_spec. unfold SFeqb.
  destruct (Prim2SF x) as [s|s| |s m e] eqn:E.
  - simpl. split; discriminate.
  - destruct s; simpl; split; discriminate.
  - simpl. split; reflexivity.
  - rewrite SFcompare_refl by discriminate. simpl. split; discriminate.
Qed.

Lemma is_nan_false (x : float) : is_nan x = false <-> Prim2SF x <> S754_nan.
Proof.
  rewrite <- is_nan_spec. destruct (is_nan x); split; congruence.
Qed.

(** [0.0 + x] is [x], except that it is [+0.0] when [x] is [-0.0]. *)
Lemma add_zero_l (x : float) :
  0 + x = x \/ (x = neg_zero /\ 0 + x = 0).
Proof.
  assert (H := add_spec 0 x). rewrite Prim2SF_zero in H.
  destruct (Prim2SF x) as [s|s| |s m e] eqn:E; simpl in H.
  - destruct s.
    + right. split; apply Prim2SF_inj; [rewrite E | rewrite H]; reflexivity.
    + left. apply Prim2SF_inj. congruence.
  - left. apply Prim2SF_inj. congruence.
  - left. apply Prim2SF_inj. congruence.
  - left. apply Prim2SF_inj. congruence.
Qed.

Lemma ltb_irrefl (x : float) : (x <? x) = false.
Proof.
  rewrite ltb_spec. unfold SFltb.
  destruct (Prim2SF x) as [s|s| |s m e] eqn:E; try reflexivity.
  - now destruct s.
  - rewrite SFcompare_refl by discriminate. reflexivity.
Qed.

Lemma ltb_false_leb (a b : float) :
  is_nan a = false -> is_nan b = false -> (a <? b) = false -> (b <=? a) = true.
Proof.
  rewrite !is_nan_false, ltb_spec, leb_spec. unfold SFltb, SFleb.
  rewrite (SFcompare_antisym (Prim2SF a) (Prim2SF b)).
  intros Ha Hb.
  destruct (SFcompare (Prim2SF a) (Prim2SF b)) as [[]|] eqn:E; simpl;
    try reflexivity; try discriminate.
  intros _.
  destruct (Prim2SF a) as [sa|sa| |sa ma ea], (Prim2SF b) as [sb|sb| |sb mb eb];
    simpl in E; congruence.
Qed.

Lemma leb_ltb_false (a b : float) : (a <=? b) = true -> (b <? a) = false.
Proof.
  rewrite ltb_spec, leb_spec. unfold SFltb, SFleb.
  rewrite (SFcompare_antisym (Prim2SF a) (Prim2SF b)).
  destruct (SFcompare (Prim2SF a) (Prim2SF b)) as [[]|]; simpl; congruence.
Qed.









(** *** Rounding never invents a NaN *)

Lemma shr_1_nonneg (mrs : shr_record) :
  (0 <= shr_m mrs)%Z -> (0 <= shr_m (shr_1 mrs))%Z.
Proof.
  destruct mrs as [m r s]; simpl.
  destruct m as [|[q|q|]|q]; simpl; lia.
Qed.

Lemma iter_pos_shr_1_nonneg (n : positive) :
  forall mrs, (0 <= shr_m mrs)%Z -> (0 <= shr_m (iter_pos shr_1 n mrs))%Z.
Proof.
  induction n as [n IH|n IH|]; simpl; intros mrs H.
  - apply IH, IH, shr_1_nonneg, H.
  - apply IH, IH, H.
  - apply shr_1_nonneg, H.
Qed.

Lemma shr_m_record_of_loc (m : Z) (l : location) :
  shr_m (shr_record_of_loc m l) = m.
Proof. destruct l as [|[]]; reflexivity. Qed.

Lemma shr_fexp_nonneg (pr em m e : Z) (l : location) :
  (0 <= m)%Z -> (0 <= shr_m (fst (shr_fexp pr em m e l)))%Z.
Proof.
  intros H. unfold shr_fexp, shr.
  destruct (fexp pr em (Zdigits2 m + e) - e)%Z; simpl;
    try (rewrite shr_m_record_of_loc; exact H).
  apply iter_pos_shr_1_nonneg. rewrite shr_m_record_of_loc. exact H.
Qed.

Lemma round_nearest_even_nonneg (m : Z) (l : location) :
  (0 <= m)%Z -> (0 <= round_nearest_even m l)%Z.
Proof.
  intros H. destruct l as [|[]]; simpl; try lia.
  destruct (Z.even m); lia.
Qed.

Lemma binary_round_aux_not_nan (pr em : Z) (sx : bool) (mx ex : Z) (lx : location) :
  (0 <= mx)%Z -> binary_round_aux pr em sx mx ex lx <> S754_nan.
Proof.
  intros H. unfold binary_round_aux.
  assert (H1 := shr_fexp_nonneg pr em mx ex lx H).
  destruct (shr_fexp pr em mx ex lx) as [mrs' e']. simpl in H1.
  assert (H2 := shr_fexp_nonneg pr em _ e' loc_Exact
                  (round_nearest_even_nonneg _ (loc_of_shr_record mrs') H1)).
  destruct (shr_fexp pr em (round_nearest_even (shr_m mrs') (loc_of_shr_record mrs'))
              e' loc_Exact) as [mrs'' e'']. simpl in H2.
  destruct (shr_m mrs'') as [|q|q]; try discriminate; try lia.
  destruct (e'' <=? em - pr)%Z; discriminate.
Qed.

Lemma binary_round_not_nan (pr em : Z) (sx : bool) (mx : positive) (ex : Z) :
  binary_round pr em sx mx ex <> S754_nan.
Proof.
  unfold binary_round.
  destruct (shl_align mx ex (fexp pr em (Z.pos (digits2_pos mx) + ex))) as [mz ez].
  apply binary_round_aux_not_nan. lia.
Qed.





Lemma Prim2SF_infinity : Prim2SF infinity = S754_infinity false.
Proof. reflexivity. Qed.

Lemma is_finite_spec (x : float) :
  is_finite x = true <-> SFfinite (Prim2SF x) = true.
Proof.
  unfold is_finite, is_infinity.
  destruct (is_nan x) eqn:En.
  - apply is_nan_spec in En. rewrite En. simpl. split; discriminate.
  - apply is_nan_false in En. simpl.
    rewrite eqb_spec, abs_spec, Prim2SF_infinity. unfold SFeqb.
    destruct (Prim2SF x) as [s|s| |s m e]; simpl; try congruence;
      split; try reflexivity; discriminate.
Qed.

Lemma is_finite_not_nan (x : float) : is_finite x = true -> is_nan x = false.
Proof.
  rewrite is_finite_spec, is_nan_false.
  destruct (Prim2SF x); simpl; congruence.
Qed.






(** *** The reciprocal of a frequency *)

Lemma digits2_pos_size (q : positive) : digits2_pos q = Pos.size q.
Proof. induction q; simpl; congruence. Qed.

Lemma size_bounds (q : positive) :
  (2 ^ (Z.pos (Pos.size q) - 1) <= Z.pos q < 2 ^ Z.pos (Pos.size q))%Z.
Proof.
  assert (Hgt := Pos.size_gt q). assert (Hle := Pos.size_le q).
  apply Pos2Z.pos_lt_pos in Hgt. apply Pos2Z.pos_le_pos in Hle.
  rewrite Pos2Z.inj_pow in Hgt, Hle.
  change (Z.pos q~0) with (2 * Z.pos q)%Z in Hle.
  split; [|exact Hgt].
  replace (Z.pos (Pos.size q)) with (Z.succ (Z.pos (Pos.size q) - 1)) in Hle by lia.
  rewrite Z.pow_succ_r in Hle by lia. lia.
Qed.

Lemma Zdigits2_53 (m : Z) :
  (2 ^ 52 <= m < 2 ^ 53)%Z -> Zdigits2 m = 53%Z.
Proof.
  intros [H1 H2]. destruct m as [|q|q]; try lia. simpl.
  rewrite digits2_pos_size.
  destruct (size_bounds q) as [B1 B2].
  assert (52 < Z.pos (Pos.size q))%Z.
  { apply (Z.pow_lt_mono_r_iff 2); [lia|lia|].
    eapply Z.le_lt_trans; [exact H1 | exact B2]. }
  assert (Z.pos (Pos.size q) - 1 < 53)%Z.
  { apply (Z.pow_lt_mono_r_iff 2); [lia|lia|].
    eapply Z.le_lt_trans; [exact B1 | exact H2]. }
  lia.
Qed.

Lemma shr_fexp_normal (m e : Z) (l : location) :
  (2 ^ 52 <= m <= 2 ^ 53)%Z -> (-1074 <= e)%Z ->
  exists mrs e',
    shr_fexp prec emax m e l = (mrs, e') /\
    (2 ^ 52 <= shr_m mrs < 2 ^ 53)%Z /\ (e <= e' <= e + 1)%Z.
Proof.
  intros Hm He.
  destruct (Z.eq_dec m (2 ^ 53)) as [->|Hne].
  - unfold shr_fexp.
    change (Zdigits2 (2 ^ 53)) with 54%Z.
    unfold fexp, SpecFloat.emin, prec, emax.
    replace (Z.max (54 + e - 53) (3 - 1024 - 53) - e)%Z with 1%Z by lia.
    eexists. eexists. split; [reflexivity|].
    split; [|lia].
    destruct l as [|[]]; cbn; lia.
  - unfold shr_fexp. rewrite Zdigits2_53 by lia.
    unfold fexp, SpecFloat.emin, prec, emax.
    replace (Z.max (53 + e - 53) (3 - 1024 - 53) - e)%Z with 0%Z by lia.
    eexists. eexists. split; [reflexivity|].
    split; [|lia].
    destruct l as [|[]]; cbn; lia.
Qed.

Lemma round_nearest_even_normal (m : Z) (l : location) :
  (2 ^ 52 <= m < 2 ^ 53)%Z -> (2 ^ 52 <= round_nearest_even m l <= 2 ^ 53)%Z.
Proof.
  intros H. destruct l as [|[]]; simpl; try lia.
  destruct (Z.even m); lia.
Qed.

Lemma binary_round_aux_normal (sx : bool) (m e : Z) (l : location) :
  (2 ^ 52 <= m <= 2 ^ 53)%Z -> (-1074 <= e <= 969)%Z ->
  exists m' e', binary_round_aux prec emax sx m e l = S754_finite sx m' e'.
Proof.
  intros Hm He. unfold binary_round_aux.
  destruct (shr_fexp_normal m e l Hm) as [mrs1 [e1 [-> [Hm1 He1]]]]; [lia|].
  assert (Hr := round_nearest_even_normal (shr_m mrs1) (loc_of_shr_record mrs1) Hm1).
  destruct (shr_fexp_normal _ e1 loc_Exact Hr) as [mrs2 [e2 [-> [Hm2 He2]]]]; [lia|].
  destruct (shr_m mrs2) as [|q|q]; try lia.
  replace (e2 <=? emax - prec)%Z with true.
  - now exists q, e2.
  - symmetry. apply Z.leb_le. unfold emax, prec. lia.
Qed.

Lemma binary_round_aux_exact (sx : bool) (mz : positive) (e : Z) :
  (2 ^ 52 <= Z.pos mz < 2 ^ 53)%Z -> (-1074 <= e <= 971)%Z ->
  binary_round_aux prec emax sx (Z.pos mz) e loc_Exact = S754_finite sx mz e.
Proof.
  intros Hm He.
  assert (S : shr_fexp prec emax (Z.pos mz) e loc_Exact
              = (Build_shr_record (Z.pos mz) false false, e)).
  { unfold shr_fexp. rewrite Zdigits2_53 by exact Hm.
    unfold fexp, SpecFloat.emin, prec, emax.
    replace (Z.max (53 + e - 53) (3 - 1024 - 53) - e)%Z with 0%Z by lia.
    reflexivity. }
  unfold binary_round_aux. rewrite S. cbn [shr_m loc_of_shr_record round_nearest_even].
  rewrite S. cbn [shr_m].
  replace (e <=? emax - prec)%Z with true; [reflexivity|].
  symmetry. apply Z.leb_le. unfold emax, prec. lia.
Qed.

Lemma Pos_iter_xO (k : positive) (q : positive) :
  Z.pos (Pos.iter xO q k) = (Z.pos q * 2 ^ Z.pos k)%Z.
Proof.
  induction k as [|k IH] using Pos.peano_ind.
  - simpl. lia.
  - rewrite Pos.iter_succ, Pos2Z.inj_xO, IH, Pos2Z.inj_succ, Z.pow_succ_r by lia.
    lia.
Qed.

(** A positive [uint32_t] converts to a normal [double]. *)
Lemma binary_round_uint32 (q : positive) :
  (Z.pos q < 2 ^ 32)%Z ->
  exists (mz : positive) (ez : Z),
    binary_round prec emax false q 0 = S754_finite false mz ez /\
    (2 ^ 52 <= Z.pos mz < 2 ^ 53)%Z /\ (-52 <= ez <= -21)%Z.
Proof.
  intros Hq. unfold binary_round.
  destruct (size_bounds q) as [B1 B2].
  assert (Hd : (Z.pos (Pos.size q) <= 32)%Z).
  { assert (Z.pos (Pos.size q) - 1 < 32)%Z; [|lia].
    apply (Z.pow_lt_mono_r_iff 2); [lia|lia|].
    eapply Z.le_lt_trans; [exact B1 | exact Hq]. }
  rewrite digits2_pos_size.
  unfold fexp, SpecFloat.emin, prec, emax.
  replace (Z.max (Z.pos (Pos.size q) + 0 - 53) (3 - 1024 - 53))
    with (Z.pos (Pos.size q) - 53)%Z by lia.
  unfold shl_align.
  destruct (Z.pos (Pos.size q) - 53 - 0)%Z as [|k|k] eqn:Ek; try lia.
  assert (Hk : (Z.pos k = 53 - Z.pos (Pos.size q))%Z) by lia.
  assert (Hm : (2 ^ 52 <= Z.pos (Pos.iter xO q k) < 2 ^ 53)%Z).
  { rewrite Pos_iter_xO, Hk.
    replace (2 ^ 52)%Z with (2 ^ (Z.pos (Pos.size q) - 1) * 2 ^ (53 - Z.pos (Pos.size q)))%Z
      by (rewrite <- Z.pow_add_r by lia; f_equal; lia).
    replace (2 ^ 53)%Z with (2 ^ Z.pos (Pos.size q) * 2 ^ (53 - Z.pos (Pos.size q)))%Z
      by (rewrite <- Z.pow_add_r by lia; f_equal; lia).
    assert (0 < 2 ^ (53 - Z.pos (Pos.size q)))%Z by (apply Z.pow_pos_nonneg; lia).
    split; [apply Z.mul_le_mono_nonneg_r | apply Z.mul_lt_mono_pos_r]; lia. }
  exists (Pos.iter xO q k), (Z.pos (Pos.size q) - 53)%Z.
  split; [|split; [exact Hm | lia]].
  apply (binary_round_aux_exact false _ _ Hm). lia.
Qed.

Lemma SFdiv_one_normal (mz : positive) (ez : Z) :
  (2 ^ 52 <= Z.pos mz < 2 ^ 53)%Z -> (-52 <= ez <= -21)%Z ->
  exists m' e',
    SF64div (S754_finite false 4503599627370496 (-52)) (S754_finite false mz ez)
    = S754_finite false m' e'.
Proof.
  intros Hm He. unfold SF64div, SFdiv, SFdiv_core_binary.
  rewrite (Zdigits2_53 (Z.pos mz)) by exact Hm.
  change (Zdigits2 4503599627370496) with 53%Z.
  unfold fexp, SpecFloat.emin, prec, emax.
  replace (Z.min (Z.max (53 + -52 - (53 + ez) - 53) (3 - 1024 - 53)) (-52 - ez))
    with (-105 - ez)%Z by lia.
  replace (-52 - ez - (-105 - ez))%Z with 53%Z by lia.
  change (Z.shiftl 4503599627370496 53) with (2 ^ 105)%Z.
  assert (D := Z_div_mod (2 ^ 105) (Z.pos mz) eq_refl).
  destruct (Z.div_eucl (2 ^ 105) (Z.pos mz)) as [q r].
  destruct D as [D1 D2].
  apply binary_round_aux_normal; [|lia].
  change (2 ^ 105)%Z with (2 ^ 52 * 2 ^ 53)%Z in D1.
  split; nia.
Qed.

Lemma Prim2SF_one : Prim2SF 1 = S754_finite false 4503599627370496 (-52).
Proof. reflexivity. Qed.

(** [1.0 / freq] is a finite non-zero [double] for every [uint32_t]
    [freq >= 1]. *)
Lemma reciprocal_of_uint32 (n : Z) :
  (1 <= n < 2 ^ 32)%Z ->
  is_finite (1 / double_of_uint32 n) = true /\
  is_zero (1 / double_of_uint32 n) = false.
Proof.
  intros Hn.
  assert (E : exists m' e', Prim2SF (1 / double_of_uint32 n) = S754_finite false m' e').
  { rewrite div_spec, Prim2SF_one. unfold double_of_uint32.
    rewrite of_uint63_spec, Uint63.of_Z_spec.
    rewrite Z.mod_small
      by (split; [lia|]; apply Z.lt_trans with (2 ^ 32)%Z; [lia | reflexivity]).
    destruct n as [|q|q]; try lia. cbn [binary_normalize].
    destruct (binary_round_uint32 q) as [mz [ez [-> [Hm He]]]]; [lia|].
    exact (SFdiv_one_normal mz ez Hm He). }
  destruct E as [m' [e' E]]. split.
  - apply is_finite_spec. rewrite E. reflexivity.
  - unfold is_zero. rewrite eqb_spec, E. reflexivity.
Qed.

(** *** NaN, zero and sign in comparisons *)

Lemma ltb_nan_l (x y : float) : is_nan x = true -> (x <? y) = false.
Proof.
  intros H. apply is_nan_spec in H. rewrite ltb_spec, H. reflexivity.
Qed.

Lemma sub_zero_r (x : float) : x - 0 = x.
Proof.
  apply Prim2SF_inj. rewrite sub_spec, Prim2SF_zero.
  destruct (Prim2SF x) as [s|s| |s m e]; try reflexivity.
  destruct s; reflexivity.
Qed.

Lemma ltb_negative_abs (L a : float) :
  (L <? 0) = true -> is_nan a = false -> (L <? abs a) = true.
Proof.
  rewrite is_nan_false, !ltb_spec, abs_spec, Prim2SF_zero. unfold SFltb.
  destruct (Prim2SF L) as [sL|sL| |sL mL eL], (Prim2SF a) as [sa|sa| |sa ma ea];
    simpl; try discriminate; try congruence;
    destruct sL; simpl; try discriminate; reflexivity.
Qed.

Lemma reciprocal_of_uint32_positive (n : Z) :
  (1 <= n < 2 ^ 32)%Z -> (0 <? 1 / double_of_uint32 n) = true.
Proof.
  intros Hn.
  rewrite ltb_spec, Prim2SF_zero, div_spec, Prim2SF_one. unfold double_of_uint32.
  rewrite of_uint63_spec, Uint63.of_Z_spec.
  rewrite Z.mod_small
    by (split; [lia|]; apply Z.lt_trans with (2 ^ 32)%Z; [lia | reflexivity]).
  destruct n as [|q|q]; try lia. cbn [binary_normalize].
  destruct (binary_round_uint32 q) as [mz [ez [-> [Hm He]]]]; [lia|].
  destruct (SFdiv_one_normal mz ez Hm He) as [m' [e' ->]]. reflexivity.
Qed.

End FloatFacts.

(** * The control tick *)

Section Tick.

Variable c : Config.

Lemma ready_true (s : State) :
  ready s = true <-> hasReading s = true /\ hasTarget s = true.
Proof. unfold ready. apply andb_true_iff. Qed.

Lemma ready_false (s : State) :
  ready s = false <-> hasReading s = false \/ hasTarget s = false.
Proof. unfold ready. apply andb_false_iff. Qed.

(** Line 145-147: the early return. *)
Lemma atFrequency_not_ready (now : Z) (s : State) :
  ready s = false -> atFrequency c now s = (s, []).
Proof.
  unfold ready, atFrequency.
  destruct (hasReading s), (hasTarget s); simpl; intros H;
    try discriminate; reflexivity.
Qed.

(** Lines 149-192: the block values are those of the lambda. *)
Lemma atFrequency_ready (now : Z) (s : State) :
  ready s = true ->
  atFrequency c now s =
    (mkState (integralI c (errorOf s) (integral s)) (prevError s)
             (hasReading s) (reading s) (hasTarget s) (target s),
     [mkSent (actuationRequest (controlValue c s)) now (outputSenderId c)]).
Proof.
  unfold ready, atFrequency.
  destruct (hasReading s), (hasTarget s); simpl; intros H; try discriminate.
  unfold controlValue, controlPID, controlI, controlD, controlP, integralI,
    integralUpdate, clampMax, clampMin, actuationRequest, errorOf.
  destruct (hasI c); reflexivity.
Qed.

(** No path of [atFrequency] assigns [prevError]. *)
Lemma atFrequency_prevError (now : Z) (s : State) :
  prevError (fst (atFrequency c now s)) = prevError s.
Proof.
  destruct (ready s) eqn:E.
  - rewrite atFrequency_ready by exact E. reflexivity.
  - rewrite atFrequency_not_ready by exact E. reflexivity.
Qed.

End Tick.

(** C10: a tick before both the reading and the target have been set returns
    at line 146: the state (with [integral] and [prevError]) is the one before
    the call and nothing is sent. *)
Theorem tick_before_ready_is_noop (c : Config) (now : Z) (s : State) :
  hasReading s = false \/ hasTarget s = false ->
  atFrequency c now s = (s, []) /\
  integral (fst (atFrequency c now s)) = integral s /\
  prevError (fst (atFrequency c now s)) = prevError s /\
  snd (atFrequency c now s) = [].
Proof.
  intros H. apply ready_false in H.
  rewrite (atFrequency_not_ready c now s H). repeat split.
Qed.

Lemma tick_before_ready_is_noop_witness :
  let c := configFor pOnlyArgs in
  let s := onGroundSpeedReading c (mkEnvelope 0 10) (initialState 3 4) in
  atFrequency c 7 s = (s, []) /\
  integral (fst (atFrequency c 7 s)) = integral s /\
  prevError (fst (atFrequency c 7 s)) = prevError s /\
  snd (atFrequency c 7 s) = [].
Proof.
  intros c s. apply (tick_before_ready_is_noop c 7 s). right. reflexivity.
Defined.

(** C2: on a ready tick with an output maximum configured, the branch of
    line 181 is taken exactly when [control], as the minimum clamp left it, is
    strictly less than [outputLimitMax], and then [control] becomes
    [outputLimitMax]; when [control >= outputLimitMax] it is left as it is.
    The value sent is the one so obtained. *)
Theorem max_clamp_triggers_below_maximum (c : Config) (now : Z) (s : State) :
  ready s = true ->
  hasOutputLimitMax c = true ->
  let control := clampMin c (controlPID c s) in
  controlValue c s =
    (if control <? outputLimitMax c then outputLimitMax c else control) /\
  ((control <? outputLimitMax c) = true -> controlValue c s = outputLimitMax c) /\
  (geb control (outputLimitMax c) = true -> controlValue c s = control) /\
  snd (atFrequency c now s) =
    [mkSent (actuationRequest (controlValue c s)) now (outputSenderId c)].
Proof.
  intros Hr Hmax control.
  assert (E : controlValue c s =
              (if control <? outputLimitMax c then outputLimitMax c else control)).
  { unfold controlValue, clampMax. rewrite Hmax. reflexivity. }
  split; [exact E|]. split; [|split].
  - intros H. rewrite E, H. reflexivity.
  - intros H. unfold geb in H. apply FloatFacts.leb_ltb_false in H.
    rewrite E, H. reflexivity.
  - rewrite (atFrequency_ready c now s Hr). reflexivity.
Qed.

Lemma max_clamp_triggers_below_maximum_witness :
  let c := configFor minMaxArgs in
  let s := mkState 0 0 true 0 true 2 in
  controlValue c s = 5 /\ clampMin c (controlPID c s) = 2.
Proof.
  intros c s.
  destruct (max_clamp_triggers_below_maximum c 9 s eq_refl eq_refl)
    as [_ [H _]].
  split; [apply H|]; reflexivity.
Defined.

(** C6 as stated fails: with an output minimum [0.0] and an output maximum
    [5.0] configured, P only with gain [1.0], reading [0.0] and target [-1.0],
    the P/I/D terms give [-1.0 < 0.0]; line 178 sets [control] to the minimum
    [0.0], and line 182 then replaces it by the maximum [5.0], which is what
    the tick sends. *)
Lemma output_floor_overridden_by_maximum :
  let c := configFor minMaxArgs in
  let s := mkState 0 0 true 0 true (-1) in
  ready s = true /\
  hasOutputLimitMin c = true /\
  outputLimitMin c = 0 /\
  (controlPID c s <? outputLimitMin c) = true /\
  controlValue c s = 5 /\
  (controlValue c s =? outputLimitMin c) = false /\
  snd (atFrequency c 0 s) = [mkSent (actuationRequest 5) 0 0].
Proof. repeat split. Qed.

(** C6, amended: on a ready tick with an output minimum [m] configured, if
    the control value computed from the P/I/D terms is strictly less than [m],
    line 178 sets [control] to exactly [m]; when no output maximum is
    configured this is the result of the tick, and what is sent. *)
Theorem output_floor_without_maximum (c : Config) (now : Z) (s : State) :
  ready s = true ->
  hasOutputLimitMin c = true ->
  (controlPID c s <? outputLimitMin c) = true ->
  clampMin c (controlPID c s) = outputLimitMin c /\
  (hasOutputLimitMax c = false ->
   controlValue c s = outputLimitMin c /\
   snd (atFrequency c now s) =
     [mkSent (actuationRequest (outputLimitMin c)) now (outputSenderId c)]).
Proof.
  intros Hr Hmin Hlt.
  assert (E : clampMin c (controlPID c s) = outputLimitMin c).
  { unfold clampMin. rewrite Hmin, Hlt. reflexivity. }
  split; [exact E|]. intros Hmax.
  assert (E' : controlValue c s = outputLimitMin c).
  { unfold controlValue, clampMax. rewrite Hmax. exact E. }
  split; [exact E'|].
  rewrite (atFrequency_ready c now s Hr), E'. reflexivity.
Qed.

Lemma output_floor_without_maximum_witness :
  let c := configFor minOnlyArgs in
  let s := mkState 0 0 true 0 true (-1) in
  clampMin c (controlPID c s) = 0 /\ controlValue c s = 0.
Proof.
  intros c s.
  destruct (output_floor_without_maximum c 0 s eq_refl eq_refl eq_refl)
    as [H1 H2].
  split; [exact H1 | exact (proj1 (H2 eq_refl))].
Defined.

(** C7: with only the P term enabled (gain [p c]; no D, no I, no output
    limits), a ready tick computes [0.0 + p c * (target - reading)].  That is
    the number [p c * (target - reading)]: the same [double], except that the
    sum is [+0.0] when the product is [-0.0].  The tick sends it and leaves
    [integral] as it was. *)
Theorem p_only_tick (c : Config) (now : Z) (s : State) :
  ready s = true ->
  hasP c = true -> hasD c = false -> hasI c = false ->
  hasOutputLimitMin c = false -> hasOutputLimitMax c = false ->
  let k := p c in
  sameNumber (controlValue c s) (k * (target s - reading s)) /\
  (controlValue c s = k * (target s - reading s) \/
   (k * (target s - reading s) = neg_zero /\ controlValue c s = 0)) /\
  snd (atFrequency c now s) =
    [mkSent (actuationRequest (controlValue c s)) now (outputSenderId c)] /\
  integral (fst (atFrequency c now s)) = integral s.
Proof.
  intros Hr HP HD HI Hmin Hmax k.
  assert (E : controlValue c s = 0 + k * (target s - reading s)).
  { unfold controlValue, clampMax, clampMin, controlPID, controlI, controlD,
      controlP, errorOf. rewrite HP, HD, HI, Hmin, Hmax. reflexivity. }
  rewrite (atFrequency_ready c now s Hr). simpl.
  unfold integralI. rewrite HI, E.
  destruct (FloatFacts.add_zero_l (k * (target s - reading s))) as [H|[H1 H2]].
  - rewrite H. repeat split; left; reflexivity.
  - rewrite H2, H1. repeat split.
    + right. reflexivity.
    + right. split; reflexivity.
Qed.

Lemma p_only_tick_witness :
  let c := configFor pOnlyArgs in
  let s := mkState 0 0 true 10 true 12 in
  sameNumber (controlValue c s) (1 * (12 - 10)) /\
  integral (fst (atFrequency c 3 s)) = 0.
Proof.
  intros c s.
  destruct (p_only_tick c 3 s eq_refl eq_refl eq_refl eq_refl eq_refl eq_refl)
    as [H1 [_ [_ H4]]].
  split; [exact H1 | exact H4].
Defined.

(** C8: every ready tick sends exactly one [ActuationRequest]: its
    [acceleration] is [static_cast<float>] of the computed [control], its
    [steering] is [0.0f] and [isValid] is [true]; and with [--freq=50 --p=1.0]
    and nothing else, reading [10.0] and target [12.0], the first ready tick
    computes [control = 2.0] (with [dt = 1/50]) and sends [acceleration = 2.0f],
    [steering = 0.0f], [isValid = true]. *)
Theorem ready_tick_sends_one_request :
  (forall (c : Config) (now : Z) (s : State),
      ready s = true ->
      snd (atFrequency c now s) =
        [mkSent (mkActuationRequest (static_cast_float (controlValue c s))
                                    zero32 true)
                now (outputSenderId c)]) /\
  (forall (reading0 target0 : float) (now : Z),
      let c := configFor pOnlyArgs in
      let evs := [readingMsg 10; requestMsg 12] in
      let s := fst (run c (initialState reading0 target0) evs) in
      dt c = 1 / 50 /\
      snd (run c (initialState reading0 target0) evs) = [] /\
      controlValue c s = 2 /\
      snd (atFrequency c now s) =
        [mkSent (mkActuationRequest (static_cast_float 2) zero32 true) now 0] /\
      double_of_float32 (static_cast_float 2) = 2).
Proof.
  split.
  - intros c now s Hr. rewrite (atFrequency_ready c now s Hr). reflexivity.
  - intros reading0 target0 now. repeat split.
Qed.

Lemma ready_tick_sends_one_request_witness :
  let c := configFor iLimitArgs in
  let s := mkState 0 0 true 10 true 12 in
  snd (atFrequency c 4 s) =
    [mkSent (mkActuationRequest (static_cast_float (controlValue c s)) zero32 true)
            4 (outputSenderId c)].
Proof.
  intros c s. apply (proj1 ready_tick_sends_one_request c 4%Z s). reflexivity.
Defined.

(** C9 as stated fails: all inputs finite ([--freq=1], gains [2^1000] and
    [-2^1000], output maximum [1.0], reading [0.0], target [2^100]) and yet the
    value published is not [>= outputLimitMax].  The P term overflows to
    [+inf], the D term to [-inf], their sum is NaN; [NaN < 1.0] is false, so
    line 182 is skipped and the request carries NaN. *)
Lemma published_control_not_above_maximum :
  let c := configFor hugeGainArgs in
  let evs := [readingMsg 0; requestMsg 0x1p100] in
  let s := fst (run c (initialState 0 0) evs) in
  ready s = true /\
  hasOutputLimitMax c = true /\
  forallb is_finite
    [p c; d c; dt c; outputLimitMax c; reading s; target s;
     integral s; prevError s] = true /\
  geb (controlValue c s) (outputLimitMax c) = false /\
  snd (atFrequency c 0 s) =
    [mkSent (mkActuationRequest S754_nan zero32 true) 0 0].
Proof. repeat split. Qed.

(** C9, amended: whenever an output maximum is configured, the [control] a
    ready tick computes is never less than [outputLimitMax], and is
    [>= outputLimitMax] whenever it and [outputLimitMax] are not NaN, whether
    or not an output minimum is configured; what is published is that value
    converted to [float]. *)
Theorem control_not_below_maximum (c : Config) (now : Z) (s : State) :
  ready s = true ->
  hasOutputLimitMax c = true ->
  (controlValue c s <? outputLimitMax c) = false /\
  (is_nan (controlValue c s) = false -> is_nan (outputLimitMax c) = false ->
   geb (controlValue c s) (outputLimitMax c) = true) /\
  snd (atFrequency c now s) =
    [mkSent (mkActuationRequest (static_cast_float (controlValue c s)) zero32 true)
            now (outputSenderId c)].
Proof.
  intros Hr Hmax.
  assert (H : (controlValue c s <? outputLimitMax c) = false).
  { unfold controlValue, clampMax. rewrite Hmax. simpl.
    destruct (clampMin c (controlPID c s) <? outputLimitMax c) eqn:E.
    - apply FloatFacts.ltb_irrefl.
    - exact E. }
  split; [exact H|]. split.
  - intros Hn Hm. unfold geb. now apply FloatFacts.ltb_false_leb.
  - rewrite (atFrequency_ready c now s Hr). reflexivity.
Qed.

Lemma control_not_below_maximum_witness :
  let c := configFor minMaxArgs in
  let s := mkState 0 0 true 0 true 2 in
  (controlValue c s <? 5) = false /\ geb (controlValue c s) 5 = true.
Proof.
  intros c s.
  destruct (control_not_below_maximum c 0 s eq_refl eq_refl) as [H1 [H2 _]].
  split; [exact H1 | exact (H2 eq_refl eq_refl)].
Defined.

(** The conversion of line 186 can round below the maximum: with
    [--p=1.0 --output-limit-max=0x1.00000004p0] (that is [1 + 2^-30]), reading
    and target [0.0], [control] is the maximum and [acceleration] is [1.0f]. *)
Lemma acceleration_rounds_below_maximum :
  let c := configFor (mkCommandLine (Some 111%Z) (Some 50%Z) None None None false
                        (Some 1) None None None None (Some 0x1.00000004p0)) in
  let s := mkState 0 0 true 0 true 0 in
  controlValue c s = outputLimitMax c /\
  snd (atFrequency c 0 s) =
    [mkSent (mkActuationRequest (static_cast_float 1) zero32 true) 0 0] /\
  (double_of_float32 (static_cast_float (controlValue c s)) <? outputLimitMax c)
  = true.
Proof. repeat split. Qed.

(** C1 fails on the code: [prevError] is never assigned.  With
    [--freq=1 --d=1.0], errors [e0 = 1.0] then [e1 = 3.0] on two consecutive
    ready ticks: after the first tick [prevError] is still [0.0], and the second
    tick computes [1.0 * (3.0 - 0.0) / 1.0 = 3.0], not
    [1.0 * (3.0 - 1.0) / 1.0 = 2.0]. *)
Lemma derivative_ignores_previous_error :
  let c := configFor dOnlyArgs in
  let s0 := fst (run c (initialState 0 0) [readingMsg 0; requestMsg 1]) in
  let s1 := fst (atFrequency c 0 s0) in
  let s2 := onGroundSpeedRequest c (mkEnvelope 0 3) s1 in
  (hasD c = true /\ d c = 1 /\ dt c = 1) /\
  (ready s0 = true /\ errorOf s0 = 1) /\
  prevError s1 = 0 /\
  (ready s2 = true /\ errorOf s2 = 3) /\
  controlValue c s2 = 3 /\
  d c * (errorOf s2 - errorOf s0) / dt c = 2 /\
  snd (atFrequency c 1 s2) = [mkSent (actuationRequest 3) 1 0].
Proof. repeat split. Qed.

(** [prevError] keeps its initial value through every run. *)
Lemma run_prevError (c : Config) (evs : list Event) :
  forall s, prevError (fst (run c s evs)) = prevError s.
Proof.
  induction evs as [|ev evs IH]; intros s; simpl; [reflexivity|].
  destruct (step c s ev) as [s1 out1] eqn:E1.
  specialize (IH s1). destruct (run c s1 evs) as [s2 out2]. simpl in *.
  rewrite IH. replace s1 with (fst (step c s ev)) by (rewrite E1; reflexivity).
  destruct ev as [envelope|envelope|now]; simpl.
  - unfold onGroundSpeedReading.
    destruct (negb (senderStamp envelope =? inputSenderId c)%Z); reflexivity.
  - unfold onGroundSpeedRequest.
    destruct (negb (senderStamp envelope =? controlSenderId c)%Z); reflexivity.
  - apply atFrequency_prevError.
Qed.

(** C3 as stated fails: [--freq=0] and [--freq=-1] are not rejected.  [main]
    converts them to [uint32_t] ([0] and [4294967295]), computes
    [dt = 1.0 / freq] ([+inf] and [1/4294967295]) and registers the lambdas;
    a tick then computes and sends as for any other frequency. *)
Lemma nonpositive_frequency_not_rejected :
  (arg_freq zeroFreqArgs = Some 0%Z /\
   main zeroFreqArgs = Started 111 0 (configFor zeroFreqArgs) /\
   dt (configFor zeroFreqArgs) = infinity /\
   snd (run (configFor zeroFreqArgs) (initialState 0 0)
          [readingMsg 10; requestMsg 12; TimeTrigger 0])
   = [mkSent (actuationRequest 2) 0 0]) /\
  (arg_freq negFreqArgs = Some (-1)%Z /\
   main negFreqArgs = Started 111 4294967295 (configFor negFreqArgs) /\
   dt (configFor negFreqArgs) = 1 / 4294967295).
Proof. repeat split. Qed.

(** C3, amended: the only startup check is that [--cid] and [--freq] are
    present.  Without one of them [main] prints the usage and returns [1]
    without starting anything; with both, whatever the value of [--freq], it
    converts the value to [uint32_t], computes [dt = 1.0 / freq] and starts
    the control loop with it. *)
Theorem main_checks_presence_only (args : CommandLine) :
  (arg_cid args = None \/ arg_freq args = None -> main args = Usage 1) /\
  (forall cidArg freqArg : Z,
      arg_cid args = Some cidArg -> arg_freq args = Some freqArg ->
      exists c : Config,
        main args = Started (to_uint16 cidArg) (to_uint32 freqArg) c /\
        dt c = 1 / double_of_uint32 (to_uint32 freqArg)).
Proof.
  split.
  - unfold main. intros [H|H]; rewrite H; [|destruct (arg_cid args)]; reflexivity.
  - intros cidArg freqArg Hc Hf. unfold main. rewrite Hc, Hf.
    eexists. split; reflexivity.
Qed.

Lemma main_checks_presence_only_witness :
  main noArgs = Usage 1 /\
  exists c : Config, main zeroFreqArgs = Started 111 0 c /\ dt c = infinity.
Proof.
  split.
  - apply (proj1 (main_checks_presence_only noArgs)). left. reflexivity.
  - apply (proj2 (main_checks_presence_only zeroFreqArgs) 111%Z 0%Z);
      reflexivity.
Defined.

(** * Runs *)

Lemma last_cons_default {A : Type} (l : list A) :
  forall x d : A, last (x :: l) d = last l x.
Proof.
  induction l as [|y l IH]; intros x d; [reflexivity|].
  change (last (x :: y :: l) d) with (last (y :: l) d).
  rewrite (IH y d), (IH y x). reflexivity.
Qed.

Section Runs.

Variable c : Config.

Lemma run_app (evs1 evs2 : list Event) :
  forall s,
    run c s (evs1 ++ evs2) =
      (fst (run c (fst (run c s evs1)) evs2),
       snd (run c s evs1) ++ snd (run c (fst (run c s evs1)) evs2)).
Proof.
  induction evs1 as [|ev evs1 IH]; intros s; simpl.
  - destruct (run c s evs2); reflexivity.
  - destruct (step c s ev) as [s1 out1].
    rewrite (IH s1).
    destruct (run c s1 evs1) as [s2 out2]. simpl.
    rewrite app_assoc. reflexivity.
Qed.

Lemma run_cons (ev : Event) (evs : list Event) (s : State) :
  run c s (ev :: evs) =
    (fst (run c (fst (step c s ev)) evs),
     snd (step c s ev) ++ snd (run c (fst (step c s ev)) evs)).
Proof.
  simpl. destruct (step c s ev) as [s1 out1]. simpl.
  destruct (run c s1 evs); reflexivity.
Qed.

(** The flags and the stored speeds after a run. *)
Lemma run_reading (evs : list Event) :
  forall s,
    hasReading (fst (run c s evs)) =
      hasReading s || negb (Nat.eqb (length (deliveredReadings c evs)) 0) /\
    reading (fst (run c s evs)) = last (deliveredReadings c evs) (reading s).
Proof.
  induction evs as [|ev evs IH]; intros s.
  - simpl. rewrite orb_false_r. split; reflexivity.
  - rewrite run_cons. cbn [fst].
    destruct (IH (fst (step c s ev))) as [IH1 IH2]. rewrite IH1, IH2. clear IH IH1 IH2.
    destruct ev as [envelope|envelope|now]; cbn [step fst deliveredReadings].
    + unfold onGroundSpeedReading.
      destruct (senderStamp envelope =? inputSenderId c)%Z; cbn [negb].
      * cbn [hasReading reading length Nat.eqb negb].
        rewrite orb_true_r. split; [reflexivity|].
        symmetry. apply last_cons_default.
      * split; reflexivity.
    + unfold onGroundSpeedRequest.
      destruct (negb (senderStamp envelope =? controlSenderId c)%Z);
        split; reflexivity.
    + destruct (ready s) eqn:E.
      * rewrite atFrequency_ready by exact E. split; reflexivity.
      * rewrite atFrequency_not_ready by exact E. split; reflexivity.
Qed.

Lemma run_target (evs : list Event) :
  forall s,
    hasTarget (fst (run c s evs)) =
      hasTarget s || negb (Nat.eqb (length (deliveredTargets c evs)) 0) /\
    target (fst (run c s evs)) = last (deliveredTargets c evs) (target s).
Proof.
  induction evs as [|ev evs IH]; intros s.
  - simpl. rewrite orb_false_r. split; reflexivity.
  - rewrite run_cons. cbn [fst].
    destruct (IH (fst (step c s ev))) as [IH1 IH2]. rewrite IH1, IH2. clear IH IH1 IH2.
    destruct ev as [envelope|envelope|now]; cbn [step fst deliveredTargets].
    + unfold onGroundSpeedReading.
      destruct (negb (senderStamp envelope =? inputSenderId c)%Z);
        split; reflexivity.
    + unfold onGroundSpeedRequest.
      destruct (senderStamp envelope =? controlSenderId c)%Z; cbn [negb].
      * cbn [hasTarget target length Nat.eqb negb].
        rewrite orb_true_r. split; [reflexivity|].
        symmetry. apply last_cons_default.
      * split; reflexivity.
    + destruct (ready s) eqn:E.
      * rewrite atFrequency_ready by exact E. split; reflexivity.
      * rewrite atFrequency_not_ready by exact E. split; reflexivity.
Qed.

(** A run that sent nothing has not touched [integral]. *)
Lemma run_silent_integral (evs : list Event) :
  forall s, snd (run c s evs) = [] -> integral (fst (run c s evs)) = integral s.
Proof.
  induction evs as [|ev evs IH]; intros s; [reflexivity|].
  rewrite run_cons. cbn [fst snd]. intros H.
  apply app_eq_nil in H. destruct H as [H1 H2].
  rewrite (IH _ H2).
  destruct ev as [envelope|envelope|now]; cbn [step fst snd] in *.
  - unfold onGroundSpeedReading.
    destruct (negb (senderStamp envelope =? inputSenderId c)%Z); reflexivity.
  - unfold onGroundSpeedRequest.
    destruct (negb (senderStamp envelope =? controlSenderId c)%Z); reflexivity.
  - destruct (ready s) eqn:E.
    + rewrite atFrequency_ready in H1 by exact E. discriminate.
    + rewrite atFrequency_not_ready by exact E. reflexivity.
Qed.

(** While a reading or a target is missing, a run sends nothing. *)
Lemma run_not_ready_silent (evs : list Event) :
  forall s,
    ready (fst (run c s evs)) = false -> snd (run c s evs) = [].
Proof.
  induction evs as [|ev evs IH]; intros s; [reflexivity|].
  rewrite run_cons. cbn [fst snd]. intros H.
  rewrite (IH _ H), app_nil_r.
  destruct ev as [envelope|envelope|now]; cbn [step fst snd] in *;
    try reflexivity.
  destruct (ready s) eqn:E.
  - exfalso. revert H. unfold ready.
    destruct (run_reading evs (fst (atFrequency c now s))) as [-> _].
    destruct (run_target evs (fst (atFrequency c now s))) as [-> _].
    rewrite atFrequency_ready by exact E. cbn [fst hasReading hasTarget].
    apply ready_true in E. destruct E as [-> ->]. discriminate.
  - rewrite atFrequency_not_ready by exact E. reflexivity.
Qed.

End Runs.

Lemma State_eta (s : State) :
  s = mkState (integral s) (prevError s) (hasReading s) (reading s)
              (hasTarget s) (target s).
Proof. destruct s; reflexivity. Qed.

(** C4: from the initial state, whatever the events and however many ticks
    among them, nothing is sent as long as no reading or no target has been
    delivered; and when exactly one reading [r] and one target [t] have been
    delivered and nothing has been sent yet, the next tick sends one request,
    computed from [t] and [r] (and the initial [integral] and [prevError]). *)
Theorem readiness_gate (c : Config) (reading0 target0 : float) :
  (forall evs : list Event,
      deliveredReadings c evs = [] \/ deliveredTargets c evs = [] ->
      snd (run c (initialState reading0 target0) evs) = []) /\
  (forall (evs : list Event) (r t : float) (now : Z),
      deliveredReadings c evs = [r] ->
      deliveredTargets c evs = [t] ->
      snd (run c (initialState reading0 target0) evs) = [] ->
      let s := mkState 0 0 true r true t in
      fst (run c (initialState reading0 target0) evs) = s /\
      errorOf s = t - r /\
      snd (run c (initialState reading0 target0) (evs ++ [TimeTrigger now])) =
        [mkSent (actuationRequest (controlValue c s)) now (outputSenderId c)]).
Proof.
  split.
  - intros evs H. apply run_not_ready_silent. unfold ready.
    destruct (run_reading c evs (initialState reading0 target0)) as [-> _].
    destruct (run_target c evs (initialState reading0 target0)) as [-> _].
    destruct H as [-> | ->]; simpl; [reflexivity | apply andb_false_r].
  - intros evs r t now Hr Ht Hsilent s.
    assert (E : fst (run c (initialState reading0 target0) evs) = s).
    { rewrite (State_eta (fst (run c (initialState reading0 target0) evs))).
      destruct (run_reading c evs (initialState reading0 target0)) as [-> ->].
      destruct (run_target c evs (initialState reading0 target0)) as [-> ->].
      rewrite run_prevError, (run_silent_integral c evs _ Hsilent), Hr, Ht.
      reflexivity. }
    split; [exact E|]. split; [reflexivity|].
    rewrite run_app, E, Hsilent. cbn [snd fst app run step].
    rewrite (atFrequency_ready c now s eq_refl). reflexivity.
Qed.

Lemma readiness_gate_witness :
  let c := configFor pOnlyArgs in
  snd (run c (initialState 3 4) [TimeTrigger 1; readingMsg 10; TimeTrigger 2]) = [] /\
  snd (run c (initialState 3 4)
         ([TimeTrigger 1; readingMsg 10; TimeTrigger 2; requestMsg 12]
          ++ [TimeTrigger 5]))
  = [mkSent (actuationRequest (controlValue c (mkState 0 0 true 10 true 12))) 5 0].
Proof.
  intros c. split.
  - apply (proj1 (readiness_gate c 3 4)). right. reflexivity.
  - apply (proj2 (readiness_gate c 3 4)
             [TimeTrigger 1; readingMsg 10; TimeTrigger 2; requestMsg 12]
             10 12 5%Z eq_refl eq_refl eq_refl).
Defined.

(** * The integral limit *)



Section IntegralLimit.

Variable c : Config.
Hypothesis limit_configured : hasILimit c = true.
Hypothesis limit_nonneg : (0 <=? iLimit c) = true.


Hypothesis limit_finite : is_finite (iLimit c) = true.
Hypothesis dt_finite : is_finite (dt c) = true.
Hypothesis dt_nonzero : is_zero (dt c) = false.





End IntegralLimit.




(** * Further properties of the handlers and of runs *)

(** X1: the two data-triggered lambdas write disjoint locals: delivering a
    reading and then a request leaves the same state as delivering them in
    the other order, whatever their sender stamps. *)
Theorem handlers_commute (c : Config) (e1 e2 : Envelope) (s : State) :
  onGroundSpeedReading c e1 (onGroundSpeedRequest c e2 s) =
  onGroundSpeedRequest c e2 (onGroundSpeedReading c e1 s).
Proof.
  unfold onGroundSpeedReading, onGroundSpeedRequest.
  destruct (negb (senderStamp e1 =? inputSenderId c)%Z),
           (negb (senderStamp e2 =? controlSenderId c)%Z); reflexivity.
Qed.

(** X2: after any run, from any state, the stored reading is the last one
    delivered with the input sender stamp (the old one if there was none),
    [hasReading] is set when it was set before or one was delivered, and
    likewise for the target; ticks and dropped envelopes change none of the
    four. *)
Theorem latest_delivery_is_stored (c : Config) (s : State) (evs : list Event) :
  let s' := fst (run c s evs) in
  reading s' = last (deliveredReadings c evs) (reading s) /\
  hasReading s' =
    hasReading s || negb (Nat.eqb (length (deliveredReadings c evs)) 0) /\
  target s' = last (deliveredTargets c evs) (target s) /\
  hasTarget s' =
    hasTarget s || negb (Nat.eqb (length (deliveredTargets c evs)) 0).
Proof.
  cbn zeta.
  destruct (run_reading c evs s) as [H1 H2].
  destruct (run_target c evs s) as [H3 H4].
  repeat split; assumption.
Qed.

Lemma step_ignored (c : Config) (s : State) (ev : Event) :
  ignoredEvent c ev = true -> step c s ev = (s, []).
Proof.
  destruct ev as [envelope|envelope|now]; cbn [ignoredEvent step]; intros H.
  - unfold onGroundSpeedReading. rewrite H. reflexivity.
  - unfold onGroundSpeedRequest. rewrite H. reflexivity.
  - discriminate.
Qed.

(** X3: envelopes with a foreign sender stamp have no effect at all: a run
    ends in the same state and sends the same requests as the run without
    them. *)
Theorem foreign_envelopes_have_no_effect (c : Config) (evs : list Event) :
  forall s : State,
    run c s evs = run c s (filter (fun ev => negb (ignoredEvent c ev)) evs).
Proof.
  induction evs as [|ev evs IH]; intros s; [reflexivity|].
  cbn [filter]. destruct (ignoredEvent c ev) eqn:E; cbn [negb].
  - rewrite run_cons, (step_ignored c s ev E). cbn [fst snd app].
    rewrite <- IH. destruct (run c s evs); reflexivity.
  - rewrite !run_cons, IH. reflexivity.
Qed.

Lemma step_sameUpToUnset (c : Config) (ev : Event) (s s' : State) :
  sameUpToUnset s s' ->
  sameUpToUnset (fst (step c s ev)) (fst (step c s' ev)) /\
  snd (step c s ev) = snd (step c s' ev).
Proof.
  intros [Hi [Hp [Hr [Ht [Hrv Htv]]]]].
  destruct ev as [envelope|envelope|now]; cbn [step fst snd].
  - split; [|reflexivity]. unfold onGroundSpeedReading.
    destruct (negb (senderStamp envelope =? inputSenderId c)%Z).
    + repeat split; assumption.
    + repeat split; cbn; assumption.
  - split; [|reflexivity]. unfold onGroundSpeedRequest.
    destruct (negb (senderStamp envelope =? controlSenderId c)%Z).
    + repeat split; assumption.
    + repeat split; cbn; assumption.
  - destruct (ready s) eqn:E.
    + assert (Es : s = s').
      { apply ready_true in E. destruct E as [E1 E2].
        rewrite (State_eta s), (State_eta s').
        rewrite <- Hi, <- Hp, <- Hr, <- Ht, <- (Hrv E1), <- (Htv E2).
        reflexivity. }
      subst s'. split; [|reflexivity]. repeat split.
    + assert (E' : ready s' = false).
      { unfold ready in *. rewrite <- Hr, <- Ht. exact E. }
      rewrite (atFrequency_not_ready c now s E),
              (atFrequency_not_ready c now s' E').
      split; [|reflexivity]. repeat split; assumption.
Qed.

Lemma run_sameUpToUnset (c : Config) (evs : list Event) :
  forall s s' : State,
    sameUpToUnset s s' ->
    sameUpToUnset (fst (run c s evs)) (fst (run c s' evs)) /\
    snd (run c s evs) = snd (run c s' evs).
Proof.
  induction evs as [|ev evs IH]; intros s s' H.
  - split; [exact H | reflexivity].
  - rewrite !run_cons. cbn [fst snd].
    destruct (step_sameUpToUnset c ev s s' H) as [H1 H2].
    destruct (IH _ _ H1) as [H3 H4].
    split; [exact H3|]. rewrite H2, H4. reflexivity.
Qed.

(** X4: the locals [reading] and [target] are declared without a value, and
    their first contents never reach an output: two runs on the same events
    from initial states that differ in those contents send the same requests
    and end with the same [integral]; once a reading and a target have been
    delivered they end in the same state. *)
Theorem uninitialised_speeds_never_used
  (c : Config) (evs : list Event) (reading0 target0 reading1 target1 : float) :
  let r0 := run c (initialState reading0 target0) evs in
  let r1 := run c (initialState reading1 target1) evs in
  snd r0 = snd r1 /\
  integral (fst r0) = integral (fst r1) /\
  (ready (fst r0) = true -> fst r0 = fst r1).
Proof.
  cbn zeta.
  assert (H0 : sameUpToUnset (initialState reading0 target0)
                             (initialState reading1 target1)).
  { repeat split; cbn; discriminate. }
  destruct (run_sameUpToUnset c evs _ _ H0) as [[Hi [Hp [Hr [Ht [Hrv Htv]]]]] Hout].
  split; [exact Hout|]. split; [exact Hi|].
  intros E. apply ready_true in E. destruct E as [E1 E2].
  rewrite (State_eta (fst (run c (initialState reading0 target0) evs))),
          (State_eta (fst (run c (initialState reading1 target1) evs))).
  rewrite <- Hi, <- Hp, <- Hr, <- Ht, <- (Hrv E1), <- (Htv E2). reflexivity.
Qed.

Lemma uninitialised_speeds_never_used_witness :
  let c := configFor pOnlyArgs in
  let evs := [TimeTrigger 1; readingMsg 10; requestMsg 12; TimeTrigger 2] in
  fst (run c (initialState 3 4) evs) = fst (run c (initialState 5 6) evs).
Proof.
  intros c evs.
  exact (proj2 (proj2 (uninitialised_speeds_never_used c evs 3 4 5 6)) eq_refl).
Defined.

Lemma step_ready (c : Config) (s : State) (ev : Event) :
  ready s = true -> ready (fst (step c s ev)) = true.
Proof.
  intros E. destruct ev as [envelope|envelope|now]; cbn [step fst].
  - apply ready_true in E. destruct E as [E1 E2]. unfold onGroundSpeedReading.
    destruct (negb (senderStamp envelope =? inputSenderId c)%Z);
      unfold ready; cbn; rewrite ?E1, ?E2; reflexivity.
  - apply ready_true in E. destruct E as [E1 E2]. unfold onGroundSpeedRequest.
    destruct (negb (senderStamp envelope =? controlSenderId c)%Z);
      unfold ready; cbn; rewrite ?E1, ?E2; reflexivity.
  - rewrite (atFrequency_ready c now s E). exact E.
Qed.

(** X5: readiness is never lost, and from a ready state every tick sends
    exactly one request, stamped with the time of that tick: the sample times
    of what a run sends are the times of its ticks, in order. *)
Theorem ready_run_sends_once_per_tick (c : Config) (evs : list Event) :
  forall s : State,
    ready s = true ->
    ready (fst (run c s evs)) = true /\
    map sentSampleTime (snd (run c s evs)) = tickTimes evs /\
    length (snd (run c s evs)) = length (tickTimes evs).
Proof.
  induction evs as [|ev evs IH]; intros s E.
  - repeat split; [exact E].
  - rewrite run_cons. cbn [fst snd].
    destruct (IH _ (step_ready c s ev E)) as [H1 [H2 H3]].
    split; [exact H1|].
    rewrite map_app, length_app, H2, H3.
    destruct ev as [envelope|envelope|now]; cbn [step snd tickTimes map length app].
    + split; reflexivity.
    + split; reflexivity.
    + rewrite (atFrequency_ready c now s E). split; reflexivity.
Qed.

Lemma ready_run_sends_once_per_tick_witness :
  let c := configFor pOnlyArgs in
  let evs := [TimeTrigger 1; readingMsg 11; TimeTrigger 2; TimeTrigger 3] in
  map sentSampleTime (snd (run c (mkState 0 0 true 10 true 12) evs)) = [1; 2; 3]%Z.
Proof.
  intros c evs.
  exact (proj1 (proj2 (ready_run_sends_once_per_tick c evs
                         (mkState 0 0 true 10 true 12) eq_refl))).
Defined.

Lemma atFrequency_sent (c : Config) (now : Z) (s : State) (m : Sent) :
  In m (snd (atFrequency c now s)) ->
  sentSenderStamp m = outputSenderId c /\
  steering (sentMessage m) = zero32 /\
  isValid (sentMessage m) = true /\
  sentSampleTime m = now.
Proof.
  destruct (ready s) eqn:E.
  - rewrite (atFrequency_ready c now s E). cbn [snd In].
    intros [<- | []]. repeat split.
  - rewrite (atFrequency_not_ready c now s E). intros [].
Qed.

(** X6: whatever the state and the events, every request a run sends
    carries the configured output sender stamp, [steering = 0.0f],
    [isValid = true], and the time of one of the ticks of the run. *)
Theorem sent_requests_are_well_formed (c : Config) (evs : list Event) :
  forall (s : State) (m : Sent),
    In m (snd (run c s evs)) ->
    sentSenderStamp m = outputSenderId c /\
    steering (sentMessage m) = zero32 /\
    isValid (sentMessage m) = true /\
    In (sentSampleTime m) (tickTimes evs).
Proof.
  induction evs as [|ev evs IH]; intros s m H; [destruct H|].
  rewrite run_cons in H. cbn [snd] in H. apply in_app_or in H.
  destruct H as [H|H].
  - destruct ev as [envelope|envelope|now]; cbn [step snd] in H;
      try (destruct H).
    destruct (atFrequency_sent c now s m H) as [H1 [H2 [H3 H4]]].
    repeat split; try assumption. cbn [tickTimes]. left. symmetry. exact H4.
  - destruct (IH _ m H) as [H1 [H2 [H3 H4]]].
    repeat split; try assumption.
    destruct ev; cbn [tickTimes]; [exact H4 | exact H4 | right; exact H4].
Qed.

Lemma sent_requests_are_well_formed_witness :
  let c := configFor pOnlyArgs in
  let m := mkSent (actuationRequest 2) 7 0 in
  sentSenderStamp m = outputSenderId c /\ In (sentSampleTime m) [7%Z].
Proof.
  intros c m.
  destruct (sent_requests_are_well_formed c [TimeTrigger 7]
              (mkState 0 0 true 10 true 12) m (or_introl eq_refl))
    as [H1 [_ [_ H4]]].
  split; [exact H1 | exact H4].
Defined.

(** * Further properties of the control law *)

Lemma static_cast_float_nan (x : float) :
  static_cast_float x = S754_nan <-> is_nan x = true.
Proof.
  rewrite FloatFacts.is_nan_spec. unfold static_cast_float.
  destruct (Prim2SF x) as [sx|sx| |sx mx ex]; split; intros H;
    try discriminate; try reflexivity.
  exfalso. exact (FloatFacts.binary_round_not_nan _ _ _ _ _ H).
Qed.

(** X7: NaN is not clamped.  When the P/I/D terms of a ready tick give NaN,
    both comparisons of lines 177 and 181 are false, [control] stays NaN
    whatever output limits are configured, and the request carries NaN; and
    the conversion to [float] yields NaN for no other [control]. *)
Theorem nan_control_is_published (c : Config) (now : Z) (s : State) :
  ready s = true ->
  (is_nan (controlPID c s) = true -> controlValue c s = controlPID c s) /\
  (snd (atFrequency c now s) =
     [mkSent (mkActuationRequest S754_nan zero32 true) now (outputSenderId c)]
   <-> is_nan (controlValue c s) = true).
Proof.
  intros Hr. split.
  - intros Hn. unfold controlValue.
    assert (E : clampMin c (controlPID c s) = controlPID c s).
    { unfold clampMin. rewrite (FloatFacts.ltb_nan_l _ _ Hn), andb_false_r.
      reflexivity. }
    rewrite E. unfold clampMax.
    rewrite (FloatFacts.ltb_nan_l _ _ Hn), andb_false_r. reflexivity.
  - rewrite (atFrequency_ready c now s Hr), <- static_cast_float_nan.
    unfold actuationRequest. split.
    + intros H. injection H as H. exact H.
    + intros H. rewrite H. reflexivity.
Qed.

Lemma nan_control_is_published_witness :
  let c := configFor hugeGainArgs in
  let s := mkState 0 0 true 0 true 0x1p100 in
  controlValue c s = controlPID c s /\
  snd (atFrequency c 0 s) = [mkSent (mkActuationRequest S754_nan zero32 true) 0 0].
Proof.
  intros c s.
  destruct (nan_control_is_published c 0 s eq_refl) as [H1 H2].
  split; [exact (H1 eq_refl) | exact (proj2 H2 eq_refl)].
Defined.

(** X8: with an output minimum and no output maximum configured, the
    [control] of a ready tick is never less than [outputLimitMin], and is
    [>= outputLimitMin] whenever it and the minimum are not NaN. *)
Theorem control_not_below_minimum (c : Config) (now : Z) (s : State) :
  ready s = true ->
  hasOutputLimitMin c = true -> hasOutputLimitMax c = false ->
  (controlValue c s <? outputLimitMin c) = false /\
  (is_nan (controlValue c s) = false -> is_nan (outputLimitMin c) = false ->
   geb (controlValue c s) (outputLimitMin c) = true) /\
  snd (atFrequency c now s) =
    [mkSent (actuationRequest (controlValue c s)) now (outputSenderId c)].
Proof.
  intros Hr Hmin Hmax.
  assert (H : (controlValue c s <? outputLimitMin c) = false).
  { unfold controlValue, clampMax, clampMin. rewrite Hmax, Hmin. cbn [andb].
    destruct (controlPID c s <? outputLimitMin c) eqn:E.
    - apply FloatFacts.ltb_irrefl.
    - exact E. }
  split; [exact H|]. split.
  - intros Hn Hm. unfold geb. now apply FloatFacts.ltb_false_leb.
  - rewrite (atFrequency_ready c now s Hr). reflexivity.
Qed.

Lemma control_not_below_minimum_witness :
  let c := configFor minOnlyArgs in
  let s := mkState 0 0 true 0 true (-1) in
  (controlValue c s <? 0) = false /\ geb (controlValue c s) 0 = true.
Proof.
  intros c s.
  destruct (control_not_below_minimum c 0 s eq_refl eq_refl eq_refl)
    as [H1 [H2 _]].
  split; [exact H1 | exact (H2 eq_refl eq_refl)].
Defined.

(** X9: without [--i] the accumulator is never written: after any run from
    any state [integral] has the value it started with. *)
Theorem integral_constant_without_I (c : Config) (evs : list Event) :
  hasI c = false ->
  forall s : State, integral (fst (run c s evs)) = integral s.
Proof.
  intros HI. induction evs as [|ev evs IH]; intros s; [reflexivity|].
  rewrite run_cons. cbn [fst]. rewrite IH.
  destruct ev as [envelope|envelope|now]; cbn [step fst].
  - unfold onGroundSpeedReading.
    destruct (negb (senderStamp envelope =? inputSenderId c)%Z); reflexivity.
  - unfold onGroundSpeedRequest.
    destruct (negb (senderStamp envelope =? controlSenderId c)%Z); reflexivity.
  - destruct (ready s) eqn:E.
    + rewrite (atFrequency_ready c now s E). cbn [fst integral].
      unfold integralI. rewrite HI. reflexivity.
    + rewrite (atFrequency_not_ready c now s E). reflexivity.
Qed.

Lemma integral_constant_without_I_witness :
  let c := configFor pOnlyArgs in
  integral (fst (run c (initialState 0 0)
                   [readingMsg 10; requestMsg 12; TimeTrigger 0; TimeTrigger 1]))
  = 0.
Proof.
  intros c.
  exact (integral_constant_without_I c
           [readingMsg 10; requestMsg 12; TimeTrigger 0; TimeTrigger 1]
           eq_refl (initialState 0 0)).
Defined.

(** X10: a negative [--i-limit] is not rejected and inverts the
    accumulator.  [|acc| > iLimit] then holds for every number [acc], so each
    ready tick stores [iLimit] (negative) when [acc > 0] and [-iLimit]
    (positive) otherwise. *)
Theorem negative_limit_inverts_integral (c : Config) (now : Z) (s : State) :
  ready s = true ->
  hasI c = true -> hasILimit c = true -> (iLimit c <? 0) = true ->
  let acc := integral s + errorOf s * dt c in
  is_nan acc = false ->
  integral (fst (atFrequency c now s)) =
    (if gtb acc 0 then iLimit c else - iLimit c) /\
  (gtb acc 0 = true -> (integral (fst (atFrequency c now s)) <? 0) = true).
Proof.
  intros Hr HI HL Hneg acc Hn.
  assert (E : integral (fst (atFrequency c now s)) =
              (if gtb acc 0 then iLimit c else - iLimit c)).
  { rewrite (atFrequency_ready c now s Hr). cbn [fst integral].
    unfold integralI, integralUpdate, gtb at 1, fabs. rewrite HI, HL. cbn [andb].
    fold acc. rewrite (FloatFacts.ltb_negative_abs _ _ Hneg Hn). reflexivity. }
  split; [exact E|]. intros Hpos. rewrite E, Hpos. exact Hneg.
Qed.

Lemma negative_limit_inverts_integral_witness :
  let c := configFor negativeLimitArgs in
  let s := mkState 0 0 true 0 true 1 in
  integral (fst (atFrequency c 0 s)) = -1.
Proof.
  intros c s.
  exact (proj1 (negative_limit_inverts_integral c 0 s
                  eq_refl eq_refl eq_refl eq_refl eq_refl)).
Defined.

(** X11: a positive [--freq] (an [int], so below [2^31]) is kept as it is by
    the conversion to [uint32_t], and the period [dt = 1.0 / freq] is then a
    finite [double] greater than zero. *)
Theorem positive_frequency_gives_positive_period
  (args : CommandLine) (cidArg freqArg : Z) :
  arg_cid args = Some cidArg -> arg_freq args = Some freqArg ->
  (1 <= freqArg < 2 ^ 31)%Z ->
  exists c : Config,
    main args = Started (to_uint16 cidArg) freqArg c /\
    is_finite (dt c) = true /\ (0 <? dt c) = true.
Proof.
  intros Hc Hf Hr. unfold main. rewrite Hc, Hf.
  assert (E : to_uint32 freqArg = freqArg).
  { unfold to_uint32. apply Z.mod_small. change (2 ^ 32)%Z with (2 * 2 ^ 31)%Z.
    lia. }
  rewrite E. eexists. split; [reflexivity|]. cbn [dt].
  assert (R : (1 <= freqArg < 2 ^ 32)%Z)
    by (change (2 ^ 32)%Z with (2 * 2 ^ 31)%Z; lia).
  split.
  - exact (proj1 (FloatFacts.reciprocal_of_uint32 freqArg R)).
  - exact (FloatFacts.reciprocal_of_uint32_positive freqArg R).
Qed.

Lemma positive_frequency_gives_positive_period_witness :
  exists c : Config,
    main pOnlyArgs = Started 111 50 c /\
    is_finite (dt c) = true /\ (0 <? dt c) = true.
Proof.
  apply (positive_frequency_gives_positive_period pOnlyArgs 111 50);
    [reflexivity | reflexivity | split; [lia | reflexivity]].
Defined.

(** X12: no event assigns [prevError], so in every run from the initial
    state it is [0.0] at every tick, and the D term of a ready tick is
    [d * error / dt], the slope from zero: with only [--d] given, the tick
    sends [0.0 + d * (target - reading) / dt]. *)
Theorem derivative_term_is_relative_to_zero
  (c : Config) (evs : list Event) (reading0 target0 : float) (now : Z) :
  let s := fst (run c (initialState reading0 target0) evs) in
  prevError s = 0 /\
  controlD c (errorOf s) (prevError s) 0 =
    (if hasD c then 0 + d c * errorOf s / dt c else 0) /\
  (ready s = true ->
   hasP c = false -> hasD c = true -> hasI c = false ->
   hasOutputLimitMin c = false -> hasOutputLimitMax c = false ->
   snd (atFrequency c now s) =
     [mkSent (actuationRequest (0 + d c * (target s - reading s) / dt c))
             now (outputSenderId c)]).
Proof.
  cbn zeta.
  assert (E : prevError (fst (run c (initialState reading0 target0) evs)) = 0)
    by (rewrite run_prevError; reflexivity).
  split; [exact E|]. split.
  - unfold controlD. rewrite E, FloatFacts.sub_zero_r. reflexivity.
  - intros Hr HP HD HI Hmin Hmax.
    rewrite (atFrequency_ready c now _ Hr).
    unfold controlValue, clampMax, clampMin, controlPID, controlI, controlD,
      controlP, errorOf.
    rewrite HP, HD, HI, Hmin, Hmax, E, FloatFacts.sub_zero_r. reflexivity.
Qed.

Lemma derivative_term_is_relative_to_zero_witness :
  let c := configFor dOnlyArgs in
  let evs := [readingMsg 0; requestMsg 1; TimeTrigger 0; requestMsg 3] in
  snd (atFrequency c 1 (fst (run c (initialState 0 0) evs))) =
    [mkSent (actuationRequest (0 + 1 * (3 - 0) / 1)) 1 0].
Proof.
  intros c evs.
  exact (proj2 (proj2 (derivative_term_is_relative_to_zero c evs 0 0 1))
           eq_refl eq_refl eq_refl eq_refl eq_refl eq_refl).
Defined.

(** X13: started without [--p], [--d], [--i] and without output limits, the
    controller is inert: every ready tick sends [acceleration = 0.0f] whatever
    the reading and the target, and leaves the state as it was. *)
Theorem no_gain_sends_zero
  (args : CommandLine) (cid freq : Z) (c : Config) (now : Z) (s : State) :
  main args = Started cid freq c ->
  arg_p args = None -> arg_d args = None -> arg_i args = None ->
  arg_output_limit_min args = None -> arg_output_limit_max args = None ->
  ready s = true ->
  atFrequency c now s =
    (s, [mkSent (mkActuationRequest zero32 zero32 true) now (outputSenderId c)]).
Proof.
  unfold main. destruct (arg_cid args) as [cidArg|]; [|discriminate].
  destruct (arg_freq args) as [freqArg|]; [|discriminate].
  intros H HP HD HI Hmin Hmax Hr. injection H as _ _ <-.
  rewrite atFrequency_ready by exact Hr.
  unfold controlValue, clampMax, clampMin, controlPID, controlI, controlD,
    controlP, integralI.
  cbn [hasP hasD hasI hasOutputLimitMin hasOutputLimitMax].
  rewrite HP, HD, HI, Hmin, Hmax. cbn [count andb].
  rewrite <- (State_eta s). reflexivity.
Qed.

Lemma no_gain_sends_zero_witness :
  let c := configFor noGainArgs in
  let s := mkState 0 0 true 10 true 12 in
  atFrequency c 4 s = (s, [mkSent (mkActuationRequest zero32 zero32 true) 4 0]).
Proof.
  intros c s.
  exact (no_gain_sends_zero noGainArgs 111 50 c 4 s
           eq_refl eq_refl eq_refl eq_refl eq_refl eq_refl eq_refl).
Defined.
